(** * Verification of the multisig governance engine and the forwarder queue

    The multisig contract (contracts/examples/multisig) is exercised by
    [multisig_whitebox_test.rs]; its engine (roles, quorum, action store,
    signatures, dispatcher) is modelled here as an explicit contract state
    with check-then-act transactions.  The forwarder-queue contract
    (forwarder_queue.rs) is modelled after its source: a linked-list
    storage mapper used as a FIFO queue. *)

From stdpp Require Import base gmap list strings.
From Stdlib Require Import Lia Sorting.Sorted.
From Stdlib Require Strings.Byte.

Module Multisig.

(** Identities are opaque addresses, compared byte for byte: modelled as [Z]. *)
Abbreviation Identity := Z (only parsing).

(** [UserRole::None], [UserRole::Proposer], [UserRole::BoardMember]. *)
Inductive UserRole := RoleNone | Proposer | BoardMember.

#[global] Instance UserRole_eq_dec : EqDecision UserRole.
Proof. solve_decision. Defined.

Definition is_board_member (r : UserRole) : bool :=
  match r with BoardMember => true | _ => false end.

Record CallActionData := {
  to : Identity;
  egld_amount : N;
  endpoint_name : option string;
  arguments : list string
}.

(** The [Action] tagged union. *)
Inductive Action :=
| AddBoardMember (a : Identity)
| AddProposer (a : Identity)
| RemoveUser (a : Identity)
| ChangeQuorum (n : nat)
| SendTransferExecute (d : CallActionData)
| SendAsyncCall (d : CallActionData)
| SCDeployFromSource (amount : N) (source : Identity) (code_metadata : N)
    (args : list string)
| SCUpgradeFromSource (sc_address : Identity) (amount : N) (source : Identity)
    (code_metadata : N) (args : list string).

(** A stored action: its payload, its proposer and its signer set. *)
Record ActionEntry := {
  action_data : Action;
  action_proposer : Identity;
  action_signers : list Identity
}.

(** The error taxonomy.  [QuorumReached] is the rejection of [discard] on an
    action whose quorum is met (the spec names no error for it). *)
Inductive Error :=
| Unauthorized | NotFound | QuorumNotMet | InvalidQuorum
| QuorumWouldBeUnreachable | NothingToRemove | QuorumReached.

(** Contract storage.  [users] lists every identity that was ever given a
    role, in registration order (the board-member and proposer lists are
    read from it); [external_calls] records the requests handed to the
    external transfer, call and deployment primitives. *)
Record State := mkState {
  user_roles : gmap Z UserRole;
  users : list Identity;
  num_board_members : nat;
  quorum : nat;
  action_last_id : nat;
  actions : gmap nat ActionEntry;
  external_calls : list Action
}.

(** ** A small error monad over the state *)

Inductive Result (A : Type) := Ok (a : A) | Err (e : Error).
Arguments Ok {A} a.
Arguments Err {A} e.

Definition M (A : Type) := State -> Result (A * State).

Definition ret {A} (a : A) : M A := fun st => Ok (a, st).
Definition bind {A B} (c : M A) (k : A -> M B) : M B := fun st =>
  match c st with Ok (a, st') => k a st' | Err e => Err e end.
Definition throw {A} (e : Error) : M A := fun _ => Err e.
Definition get : M State := fun st => Ok (st, st).
Definition modify (f : State -> State) : M unit := fun st => Ok (tt, f st).
Definition require (b : bool) (e : Error) : M unit :=
  if b then ret tt else throw e.

Local Notation "'let!' x := c 'in' k" := (bind c (fun x => k))
  (at level 200, x name, c at level 100, k at level 200).

(** ** Role registry *)

(** Modelled from the spec: [role_of] (the contract's [user_role] view),
    a pure lookup defaulting to [None]. *)
Definition role_of (st : State) (i : Identity) : UserRole :=
  match user_roles st !! i with Some r => r | None => RoleNone end.

Definition board_member_count (st : State) : nat := num_board_members st.

(** Modelled from the spec: [set_role], an unconditional overwrite that keeps
    the board-member count up to date incrementally. *)
Definition set_role_st (i : Identity) (r : UserRole) (st : State) : State :=
  let n := num_board_members st in
  let n' :=
    match is_board_member (role_of st i), is_board_member r with
    | true, false => n - 1
    | false, true => S n
    | _, _ => n
    end in
  mkState (<[i := r]> (user_roles st))
    (if bool_decide (i ∈ users st) then users st else users st ++ [i])
    n' (quorum st) (action_last_id st) (actions st) (external_calls st).

Definition set_quorum_st (n : nat) (st : State) : State :=
  mkState (user_roles st) (users st) (num_board_members st) n
    (action_last_id st) (actions st) (external_calls st).

Definition set_actions (f : gmap nat ActionEntry -> gmap nat ActionEntry)
    (st : State) : State :=
  mkState (user_roles st) (users st) (num_board_members st) (quorum st)
    (action_last_id st) (f (actions st)) (external_calls st).

Definition get_all_board_members (st : State) : list Identity :=
  List.filter (fun u => is_board_member (role_of st u)) (users st).

Definition get_all_proposers (st : State) : list Identity :=
  List.filter (fun u => bool_decide (role_of st u = Proposer)) (users st).

(** ** Quorum config *)

(** Modelled from the spec: [set_quorum] rejects [0] and anything above the
    current board-member count. *)
Definition set_quorum (n : nat) : M unit :=
  let! st := get in
  let! _ := require (negb (n =? 0) && (n <=? num_board_members st)) InvalidQuorum in
  modify (set_quorum_st n).

(** ** Deployment *)

Definition empty_state : State := mkState ∅ [] 0 0 0 ∅ [].

(** Modelled from the spec: deployment-time initialisation; the given
    identities become board members and the quorum is validated like
    [set_quorum]. *)
Definition init (q : nat) (board : list Identity) : Result State :=
  let st := fold_left (fun st b => set_role_st b BoardMember st) board empty_state in
  match set_quorum q st with
  | Ok (_, st') => Ok st'
  | Err e => Err e
  end.

(** ** Action store and signature ledger *)

(** Modelled from the spec: [get]. *)
Definition get_action (id : nat) : M ActionEntry := fun st =>
  match actions st !! id with
  | Some e => Ok (e, st)
  | None => Err NotFound
  end.

(** Modelled from the spec: [propose], which allocates the next id from the
    lifetime counter. *)
Definition propose (caller : Identity) (a : Action) : M nat :=
  let! st := get in
  let! _ := require (match role_of st caller with RoleNone => false | _ => true end)
    Unauthorized in
  let id := S (action_last_id st) in
  let! _ := modify (fun st =>
    mkState (user_roles st) (users st) (num_board_members st) (quorum st) id
      (<[id := Build_ActionEntry a caller []]> (actions st))
      (external_calls st)) in
  ret id.

(** Modelled from the spec: [signature_count] counts the recorded signers
    that are board members now. *)
Definition valid_signature_count (st : State) (e : ActionEntry) : nat :=
  length (List.filter (fun s => is_board_member (role_of st s)) (action_signers e)).

Definition signature_count (st : State) (id : nat) : nat :=
  match actions st !! id with
  | Some e => valid_signature_count st e
  | None => 0
  end.

Definition quorum_reached (st : State) (id : nat) : bool :=
  quorum st <=? signature_count st id.

Definition with_signers (e : ActionEntry) (l : list Identity) : ActionEntry :=
  Build_ActionEntry (action_data e) (action_proposer e) l.

(** Modelled from the spec: [sign]; inserting a present signer is a no-op. *)
Definition sign (id : nat) (caller : Identity) : M unit :=
  let! st := get in
  let! _ := require (is_board_member (role_of st caller)) Unauthorized in
  let! e := get_action id in
  if bool_decide (caller ∈ action_signers e) then ret tt
  else modify (set_actions (<[id := with_signers e (action_signers e ++ [caller])]>)).

(** Modelled from the spec: [unsign]; removes the signer if present. *)
Definition unsign (id : nat) (caller : Identity) : M unit :=
  let! st := get in
  let! _ := require (is_board_member (role_of st caller)) Unauthorized in
  let! e := get_action id in
  modify (set_actions (<[id := with_signers e
     (List.filter (fun s => negb (Z.eqb s caller)) (action_signers e))]>)).

(** Modelled from the spec: [discard], allowed to a board member or the
    proposer, and only while the quorum is not reached. *)
Definition discard (id : nat) (caller : Identity) : M unit :=
  let! st := get in
  let! e := get_action id in
  let! _ := require (is_board_member (role_of st caller) || Z.eqb caller (action_proposer e))
    Unauthorized in
  let! _ := require (negb (quorum_reached st id)) QuorumReached in
  modify (set_actions (delete id)).

(** ** Action dispatcher *)

Definition log_external (a : Action) (st : State) : State :=
  mkState (user_roles st) (users st) (num_board_members st) (quorum st)
    (action_last_id st) (actions st) (external_calls st ++ [a]).

(** Modelled from the spec: a demotion of a board member is rejected when
    the remaining board could no longer reach the quorum. *)
Definition demotion_allowed (st : State) (x : Identity) : bool :=
  negb (is_board_member (role_of st x))
  || (quorum st <=? num_board_members st - 1).

(** Modelled from the spec: the branch on the action kind taken by
    [perform]. *)
Definition perform_action_kind (a : Action) : M unit :=
  match a with
  | AddBoardMember x => modify (set_role_st x BoardMember)
  | AddProposer x =>
      let! st := get in
      let! _ := require (demotion_allowed st x) QuorumWouldBeUnreachable in
      modify (set_role_st x Proposer)
  | RemoveUser x =>
      let! st := get in
      let! _ := require (match role_of st x with RoleNone => false | _ => true end)
        NothingToRemove in
      let! _ := require (demotion_allowed st x) QuorumWouldBeUnreachable in
      modify (set_role_st x RoleNone)
  | ChangeQuorum n => set_quorum n
  | SendTransferExecute _ | SendAsyncCall _
  | SCDeployFromSource _ _ _ _ | SCUpgradeFromSource _ _ _ _ _ =>
      modify (log_external a)
  end.

(** Modelled from the spec: [perform], for a board member, once the action
    reached its quorum; on success the action leaves the store. *)
Definition perform (id : nat) (caller : Identity) : M unit :=
  let! st := get in
  let! _ := require (is_board_member (role_of st caller)) Unauthorized in
  let! e := get_action id in
  let! _ := require (quorum_reached st id) QuorumNotMet in
  let! _ := perform_action_kind (action_data e) in
  modify (set_actions (delete id)).

(** ** Transactions *)

(** The public mutating endpoints. *)
Inductive Op :=
| OPropose (caller : Identity) (a : Action)
| OSign (id : nat) (caller : Identity)
| OUnsign (id : nat) (caller : Identity)
| ODiscard (id : nat) (caller : Identity)
| OPerform (id : nat) (caller : Identity).

Inductive Out := OutId (id : nat) | OutUnit.

Definition exec (op : Op) : M Out :=
  match op with
  | OPropose c a => let! id := propose c a in ret (OutId id)
  | OSign id c => let! _ := sign id c in ret OutUnit
  | OUnsign id c => let! _ := unsign id c in ret OutUnit
  | ODiscard id c => let! _ := discard id c in ret OutUnit
  | OPerform id c => let! _ := perform id c in ret OutUnit
  end.

(** A transaction either commits its new state or is rejected, leaving the
    storage as it was. *)
Definition run_tx (st : State) (op : Op) : State * Result Out :=
  match exec op st with
  | Ok (o, st') => (st', Ok o)
  | Err e => (st, Err e)
  end.

Fixpoint run_trace (st : State) (ops : list Op) : State * list (Result Out) :=
  match ops with
  | [] => (st, [])
  | op :: ops' =>
      let '(st1, r) := run_tx st op in
      let '(st2, rs) := run_trace st1 ops' in
      (st2, r :: rs)
  end.

(** The ids returned by the successful proposals of a run. *)
Fixpoint proposed_ids (rs : list (Result Out)) : list nat :=
  match rs with
  | [] => []
  | Ok (OutId id) :: rs' => id :: proposed_ids rs'
  | _ :: rs' => proposed_ids rs'
  end.

(** The test fixture: board [{B}], quorum 1, and [P] made a proposer at
    deployment time (the [setup] of the whitebox test). *)
Definition setup (B P : Identity) : Result State :=
  match init 1 [B] with
  | Ok st => Ok (set_role_st P Proposer st)
  | Err e => Err e
  end.

(** The quorum invariant of the spec: [1 <= quorum() <= board_member_count()]. *)
Definition quorum_inv (st : State) : Prop :=
  1 <= quorum st <= board_member_count st.

(** States reachable from a successful deployment through public
    transactions (committed or rejected). *)
Inductive reachable : State -> Prop :=
| reach_init q board st : init q board = Ok st -> reachable st
| reach_tx st op : reachable st -> reachable (fst (run_tx st op)).

(** The identity whose role an action changes, if any. *)
Definition role_target (a : Action) : option Identity :=
  match a with
  | AddBoardMember x | AddProposer x | RemoveUser x => Some x
  | _ => None
  end.

(** The state deployed with quorum 1 and board [{1}]. *)
Definition deployed_1_1 : State :=
  match init 1 [1%Z] with Ok st => st | Err _ => empty_state end.

End Multisig.

(** * The forwarder-queue contract (forwarder_queue.rs) *)

Module ForwarderQueue.

(** [QueuedCallType]. *)
Inductive QueuedCallType := Sync | LegacyAsync | TransferExecute | Promise.

(** [EsdtTokenPayment]: token identifier, nonce and amount. *)
Record EsdtTokenPayment := {
  token_identifier : string;
  token_nonce : N;
  amount : N
}.

(** [EgldOrMultiEsdtPayment], the value of [call_value().any_payment()]. *)
Inductive EgldOrMultiEsdtPayment :=
| Egld (egld_value : N)
| MultiEsdt (esdt_payments : list EsdtTokenPayment).

(** [QueuedCall]; [gas_limit] is a [u64]. *)
Record QueuedCall := {
  call_type : QueuedCallType;
  to : Z;
  gas_limit : N;
  endpoint_name : string;
  args : list string;
  payments : EgldOrMultiEsdtPayment
}.

(** The contract call built for a queued call: destination, endpoint,
    payment and raw arguments ([ContractCallWithEgld] or the normalised
    [ContractCallWithMultiEsdt]). *)
Record ContractCall := {
  cc_to : Z;
  cc_endpoint : string;
  cc_payment : EgldOrMultiEsdtPayment;
  cc_args : list string
}.

(** The observable effects of the contract, in order: its events and the
    calls it makes. *)
Inductive Effect :=
| AddQueuedCallEgldEvent (ty : QueuedCallType) (to : Z) (endpoint : string) (v : N)
| AddQueuedCallEsdtEvent (ty : QueuedCallType) (to : Z) (endpoint : string)
    (ps : list EsdtTokenPayment)
| ForwardQueuedCallEgldEvent (ty : QueuedCallType) (to : Z) (endpoint : string) (v : N)
| ForwardQueuedCallEsdtEvent (ty : QueuedCallType) (to : Z) (endpoint : string)
    (ps : list EsdtTokenPayment)
| ExecuteOnDestContext (c : ContractCall)
| AsyncCallAndExit (c : ContractCall)
| TransferExecuteCall (c : ContractCall) (gas : N)
| RegisterPromise (c : ContractCall) (gas : N).

(** Storage: the [queued_calls] linked list, front first; and the effects
    emitted so far. *)
Record State := mkState {
  queued_calls : list QueuedCall;
  effects : list Effect
}.

(** [add_queued_call]: emits the event matching the payment, then
    [queued_calls().push_back(...)]. *)
Definition add_queued_call (call_type : QueuedCallType) (to : Z) (gas_limit : N)
    (endpoint_name : string) (args : list string)
    (payments : EgldOrMultiEsdtPayment) (st : State) : State :=
  let ev :=
    match payments with
    | Egld egld_value => AddQueuedCallEgldEvent call_type to endpoint_name egld_value
    | MultiEsdt esdt_payments =>
        AddQueuedCallEsdtEvent call_type to endpoint_name esdt_payments
    end in
  mkState
    (queued_calls st ++
       [Build_QueuedCall call_type to gas_limit endpoint_name args payments])
    (effects st ++ [ev]).

Definition forward_event (call : QueuedCall) : Effect :=
  match payments call with
  | Egld egld_value =>
      ForwardQueuedCallEgldEvent (call_type call) (to call) (endpoint_name call) egld_value
  | MultiEsdt esdt_payments =>
      ForwardQueuedCallEsdtEvent (call_type call) (to call) (endpoint_name call)
        esdt_payments
  end.

Definition contract_call (call : QueuedCall) : ContractCall :=
  Build_ContractCall (to call) (endpoint_name call) (payments call) (args call).

(** Records one more effect. *)
Definition push_effect (e : Effect) (st : State) : State :=
  mkState (queued_calls st) (effects st ++ [e]).

Section Forward.

(** The [promises] cargo feature. *)
Variable promises : bool.

(** The run of a synchronous callee by [execute_on_dest_context], with what
    it does to this contract's storage and effects while it runs (it may call
    back the forwarder's endpoints, [add_queued_call] among them); [None] is
    a failing callee, whose failure fails, and so reverts, the whole
    transaction. *)
Variable execute_on_dest_context : ContractCall -> State -> option State.

(** The [while let Some(node) = self.queued_calls().pop_front()] loop of
    [forward_queued_calls].  Every pass pops the front of the queue as it is
    in storage then, so it sees the calls a synchronous callee added.
    [call_and_exit] ends the transaction at once, leaving the rest of the
    queue in storage; without the [promises] feature, [call_promise] does
    nothing.  [fuel] is the transaction's gas: every pass costs some, and
    running out fails the transaction ([None]). *)
Fixpoint forward_loop (fuel : nat) (st : State) : option State :=
  match fuel with
  | O => None
  | S fuel' =>
      match queued_calls st with
      | [] => Some st
      | call :: rest =>
          let st1 := mkState rest (effects st ++ [forward_event call]) in
          let cc := contract_call call in
          match call_type call with
          | Sync =>
              match execute_on_dest_context cc (push_effect (ExecuteOnDestContext cc) st1) with
              | Some st2 => forward_loop fuel' st2
              | None => None
              end
          | LegacyAsync => Some (push_effect (AsyncCallAndExit cc) st1)
          | TransferExecute =>
              forward_loop fuel' (push_effect (TransferExecuteCall cc (gas_limit call)) st1)
          | Promise =>
              forward_loop fuel'
                (if promises then push_effect (RegisterPromise cc (gas_limit call)) st1
                 else st1)
          end
      end
  end.

(** [forward_queued_calls]; [None] is a failed (reverted) transaction. *)
Definition forward_queued_calls (fuel : nat) (st : State) : option State :=
  forward_loop fuel st.


End Forward.

(** Synchronous callees.  [callee_returns] succeeds without calling back
    the forwarder; [callee_adds adds] succeeds after calling back the
    forwarder's [add_queued_call] once for every call of [adds cc], in order. *)
Definition callee_returns (cc : ContractCall) (st : State) : option State := Some st.



(** The typed endpoints: [add_queued_call_sync] and
    [add_queued_call_legacy_async] queue a gas limit of 0;
    [add_queued_call_transfer_execute] and [add_queued_call_promise] queue
    the given one. *)
Definition add_queued_call_sync (to : Z) (endpoint_name : string)
    (args : list string) (payments : EgldOrMultiEsdtPayment) : State -> State :=
  add_queued_call Sync to 0 endpoint_name args payments.

Definition add_queued_call_legacy_async (to : Z) (endpoint_name : string)
    (args : list string) (payments : EgldOrMultiEsdtPayment) : State -> State :=
  add_queued_call LegacyAsync to 0 endpoint_name args payments.

Definition add_queued_call_transfer_execute (to : Z) (gas_limit : N)
    (endpoint_name : string) (args : list string)
    (payments : EgldOrMultiEsdtPayment) : State -> State :=
  add_queued_call TransferExecute to gas_limit endpoint_name args payments.

Definition add_queued_call_promise (to : Z) (gas_limit : N)
    (endpoint_name : string) (args : list string)
    (payments : EgldOrMultiEsdtPayment) : State -> State :=
  add_queued_call Promise to gas_limit endpoint_name args payments.




End ForwarderQueue.

(** * The whitebox test harness of the multisig contract
    (multisig_whitebox_test.rs) *)

Module MultisigWhitebox.

(** ** [num_bigint::BigUint] byte conversions used by [call_propose]

    [to_bytes_be] is the minimal big-endian encoding, with [vec![0]] for
    zero; [from_bytes_be] folds the bytes most significant first.  The
    digit loop runs on fuel [N.size_nat n], the bit length of [n], which
    bounds its number of base-256 digits. *)

Definition byte_of_low8 (n : N) : Byte.byte :=
  match Byte.of_N (n mod 256) with Some b => b | None => Byte.x00 end.

Fixpoint to_bytes_be_digits (fuel : nat) (n : N) (acc : list Byte.byte)
    : list Byte.byte :=
  match fuel with
  | O => acc
  | S f =>
      if (n =? 0)%N then acc
      else to_bytes_be_digits f (n / 256) (byte_of_low8 n :: acc)
  end.

Definition to_bytes_be (n : N) : list Byte.byte :=
  if (n =? 0)%N then [Byte.x00] else to_bytes_be_digits (N.size_nat n) n [].

Definition from_bytes_be (bs : list Byte.byte) : N :=
  fold_left (fun acc b => acc * 256 + Byte.to_N b)%N bs 0%N.

(** ** The raw actions of the test *)

(** [CallActionDataRaw]; a [BoxedBytes] is a byte string, modelled as a
    [string] like the contract's buffers. *)
Module CallActionDataRaw.
Record t := mk {
  to : Z;
  egld_amount : N;
  endpoint_name : string;
  arguments : list string
}.
End CallActionDataRaw.

(** [ActionRaw]. *)
Module ActionRaw.
Inductive t :=
| _Nothing
| AddBoardMember (addr : Z)
| AddProposer (addr : Z)
| RemoveUser (addr : Z)
| ChangeQuorum (new_size : nat)
| SendTransferExecute (call_data : CallActionDataRaw.t)
| SendAsyncCall (call_data : CallActionDataRaw.t)
| SCDeployFromSource (amount : N) (source : Z) (code_metadata : N)
    (arguments : list string)
| SCUpgradeFromSource (sc_address : Z) (amount : N) (source : Z)
    (code_metadata : N) (arguments : list string).
End ActionRaw.

(** [boxed_bytes_vec_to_managed]: pushes every element into a fresh vector. *)
Definition boxed_bytes_vec_to_managed (raw_vec : list string) : list string :=
  fold_left (fun result item => result ++ [item]) raw_vec [].

(** The [opt_endpoint] of [call_propose]: [OptionalValue::None] for an
    empty endpoint name. *)
Definition opt_endpoint (endpoint_name : string) : option string :=
  match endpoint_name with EmptyString => None | _ => Some endpoint_name end.

(** The [egld_amount] chosen by [call_propose] for the call's EGLD value. *)
Definition call_propose_egld_amount (action : ActionRaw.t) : N :=
  match action with
  | ActionRaw.SendTransferExecute call_data => CallActionDataRaw.egld_amount call_data
  | ActionRaw.SendAsyncCall call_data => CallActionDataRaw.egld_amount call_data
  | ActionRaw.SCDeployFromSource amount _ _ _ => amount
  | ActionRaw.SCUpgradeFromSource _ amount _ _ _ => amount
  | _ => 0%N
  end.

(** The action that the closure of [call_propose] proposes; [None] is the
    [panic!] on [_Nothing].  Modelled from the spec: each [propose_*]
    endpoint of the contract proposes the corresponding [Action] with its
    arguments. *)
Definition call_propose_action (action : ActionRaw.t) : option Multisig.Action :=
  match action with
  | ActionRaw._Nothing => None
  | ActionRaw.AddBoardMember addr => Some (Multisig.AddBoardMember addr)
  | ActionRaw.AddProposer addr => Some (Multisig.AddProposer addr)
  | ActionRaw.RemoveUser addr => Some (Multisig.RemoveUser addr)
  | ActionRaw.ChangeQuorum new_size => Some (Multisig.ChangeQuorum new_size)
  | ActionRaw.SendTransferExecute call_data =>
      Some (Multisig.SendTransferExecute (Multisig.Build_CallActionData
        (CallActionDataRaw.to call_data)
        (from_bytes_be (to_bytes_be (CallActionDataRaw.egld_amount call_data)))
        (opt_endpoint (CallActionDataRaw.endpoint_name call_data))
        (boxed_bytes_vec_to_managed (CallActionDataRaw.arguments call_data))))
  | ActionRaw.SendAsyncCall call_data =>
      Some (Multisig.SendAsyncCall (Multisig.Build_CallActionData
        (CallActionDataRaw.to call_data)
        (from_bytes_be (to_bytes_be (CallActionDataRaw.egld_amount call_data)))
        (opt_endpoint (CallActionDataRaw.endpoint_name call_data))
        (boxed_bytes_vec_to_managed (CallActionDataRaw.arguments call_data))))
  | ActionRaw.SCDeployFromSource amount source code_metadata arguments =>
      Some (Multisig.SCDeployFromSource (from_bytes_be (to_bytes_be amount))
        source code_metadata (boxed_bytes_vec_to_managed arguments))
  | ActionRaw.SCUpgradeFromSource sc_address amount source code_metadata arguments =>
      Some (Multisig.SCUpgradeFromSource sc_address
        (from_bytes_be (to_bytes_be amount)) source code_metadata
        (boxed_bytes_vec_to_managed arguments))
  end.

(** [call_propose]: a [whitebox_call] from [proposer], whose EGLD balance
    is [balance], carrying the EGLD value
    [from_bytes_be (to_bytes_be egld_amount)], whose closure proposes the
    action.  [whitebox_call] requires the transaction to succeed, so a
    value above the balance, the [panic!] on [_Nothing] and a rejected
    proposal all panic the test ([None]).  Otherwise the result is the
    attached EGLD value, the returned [action_id] and the new contract state. *)
Definition call_propose (balance : N) (proposer : Z) (action : ActionRaw.t)
    (st : Multisig.State) : option (N * nat * Multisig.State) :=
  let egld_amount := call_propose_egld_amount action in
  let amount_rust_biguint := from_bytes_be (to_bytes_be egld_amount) in
  if (balance <? amount_rust_biguint)%N then None
  else
    match call_propose_action action with
    | None => None
    | Some a =>
        match Multisig.propose proposer a st with
        | Multisig.Ok (action_id, st') => Some (amount_rust_biguint, action_id, st')
        | Multisig.Err _ => None
        end
    end.

End MultisigWhitebox.

(** * Properties of the multisig engine *)

Module MultisigFacts.
Import Multisig.

(** Evaluates a run of the engine on symbolic identities: unfolds the
    operations, resolves the role lookups with the distinctness hypotheses
    and decides list membership. *)
Ltac decide_mem :=
  match goal with
  | |- context [bool_decide (?x ∈ ?l)] =>
      first
        [ rewrite (bool_decide_eq_false_2 (x ∈ l))
            by (let Hin := fresh in intros Hin; apply list_elem_of_In in Hin;
                simpl in Hin; intuition congruence)
        | rewrite (bool_decide_eq_true_2 (x ∈ l))
            by (apply list_elem_of_In; simpl; auto) ]
  end.

Ltac crunch_once :=
  unfold propose, sign, unsign, discard, perform, perform_action_kind, set_quorum,
    demotion_allowed, bind, get, require, ret, throw, modify, get_action,
    quorum_reached, signature_count, valid_signature_count, role_of,
    set_role_st, set_quorum_st, set_actions, log_external, empty_state,
    get_all_board_members, get_all_proposers, board_member_count in *;
  cbn; simplify_map_eq; repeat decide_mem; cbn; simplify_map_eq.

Ltac crunch := crunch_once; crunch_once.

Example setup_board : exists st, setup 1 2 = Ok st /\
  get_all_board_members st = [1%Z] /\ get_all_proposers st = [2%Z]
  /\ quorum st = 1 /\ board_member_count st = 1.
Proof. eexists; split; [reflexivity|]. vm_compute. auto. Qed.

(** C1 (the [test_add_board_member] scenario).  From board [{B}], quorum 1
    and proposer [P]: [P] proposes [AddBoardMember X] and gets id 1; after
    [B] signs, [quorum_reached 1] holds; after [B] performs, [X] is a board
    member, the board counts 2 members ([B] then [X]) and action 1 is gone. *)
Theorem add_board_member_scenario (B P X : Identity)
  (HBP : B <> P) (HBX : B <> X) (HPX : P <> X) :
  exists st0, setup B P = Ok st0 /\
  exists st1, propose P (AddBoardMember X) st0 = Ok (1, st1) /\
  exists st2, sign 1 B st1 = Ok (tt, st2) /\ quorum_reached st2 1 = true /\
  exists st3, perform 1 B st2 = Ok (tt, st3) /\
    role_of st3 X = BoardMember /\ board_member_count st3 = 2 /\
    get_action 1 st3 = Err NotFound /\ get_all_board_members st3 = [B; X].
Proof.
  eexists; split; [reflexivity|].
  eexists; split; [crunch; reflexivity|].
  eexists; split; [crunch; reflexivity|].
  split; [crunch; reflexivity|].
  eexists; split; [crunch; reflexivity|].
  crunch. auto.
Qed.

Lemma add_board_member_scenario_witness :
  (1 <> 2 /\ 1 <> 3 /\ 2 <> 3)%Z /\
  exists st0, setup 1 2 = Ok st0 /\
  exists st1, propose 2 (AddBoardMember 3) st0 = Ok (1, st1) /\
  exists st2, sign 1 1 st1 = Ok (tt, st2) /\ quorum_reached st2 1 = true /\
  exists st3, perform 1 1 st2 = Ok (tt, st3) /\
    role_of st3 3 = BoardMember /\ board_member_count st3 = 2 /\
    get_action 1 st3 = Err NotFound /\ get_all_board_members st3 = [1; 3]%Z.
Proof. split; [lia|]. apply add_board_member_scenario; lia. Defined.

(** C8 (the [test_remove_proposer] scenario).  From board [{B}], quorum 1
    and proposer [P]: after [P] proposes [RemoveUser P], [B] signs and [B]
    performs, [P] has no role, the board list is [B] alone (without [P]) and
    the proposer list is empty. *)
Theorem remove_proposer_scenario (B P : Identity) (HBP : B <> P) :
  exists st0, setup B P = Ok st0 /\
  exists id st1, propose P (RemoveUser P) st0 = Ok (id, st1) /\
  exists st2, sign id B st1 = Ok (tt, st2) /\
  exists st3, perform id B st2 = Ok (tt, st3) /\
    role_of st3 P = RoleNone /\
    get_all_board_members st3 = [B] /\ ~ In P (get_all_board_members st3) /\
    get_all_proposers st3 = [].
Proof.
  eexists; split; [reflexivity|].
  eexists _, _; split; [crunch; reflexivity|].
  eexists; split; [crunch; reflexivity|].
  eexists; split; [crunch; reflexivity|].
  crunch. intuition congruence.
Qed.

Lemma remove_proposer_scenario_witness :
  (1 <> 2)%Z /\
  exists st0, setup 1 2 = Ok st0 /\
  exists id st1, propose 2 (RemoveUser 2) st0 = Ok (id, st1) /\
  exists st2, sign id 1 st1 = Ok (tt, st2) /\
  exists st3, perform id 1 st2 = Ok (tt, st3) /\
    role_of st3 2 = RoleNone /\
    get_all_board_members st3 = [1%Z] /\ ~ In 2%Z (get_all_board_members st3) /\
    get_all_proposers st3 = [].
Proof. split; [lia|]. apply remove_proposer_scenario; lia. Defined.

(** ** The quorum invariant *)

Ltac unfold_ops :=
  unfold exec, propose, sign, unsign, discard, perform, perform_action_kind,
    set_quorum, bind, get, require, ret, throw, modify, get_action in *.

Lemma set_role_st_quorum i r st : quorum (set_role_st i r st) = quorum st.
Proof. reflexivity. Qed.

Lemma set_role_st_num_ge i r st :
  is_board_member (role_of st i) = false ->
  num_board_members st <= num_board_members (set_role_st i r st).
Proof. intros H. unfold set_role_st; cbn. rewrite H. destruct r; cbn; lia. Qed.

Lemma set_role_st_num_bm i r st :
  is_board_member (role_of st i) = true ->
  num_board_members st - 1 <= num_board_members (set_role_st i r st).
Proof. intros H. unfold set_role_st; cbn. rewrite H. destruct r; cbn; lia. Qed.

Lemma set_role_st_to_bm i st :
  num_board_members st <= num_board_members (set_role_st i BoardMember st).
Proof. unfold set_role_st; cbn. destruct (is_board_member _); cbn; lia. Qed.

(** A demotion that passed [demotion_allowed] keeps the quorum reachable. *)
Lemma demotion_keeps_inv st x r :
  quorum_inv st -> demotion_allowed st x = true ->
  quorum_inv (set_role_st x r st).
Proof.
  unfold quorum_inv, board_member_count, demotion_allowed.
  intros Hinv Hd. rewrite set_role_st_quorum.
  destruct (is_board_member (role_of st x)) eqn:E; cbn in Hd.
  - apply Nat.leb_le in Hd. pose proof (set_role_st_num_bm x r st E). lia.
  - pose proof (set_role_st_num_ge x r st E). lia.
Qed.

Lemma perform_action_kind_inv a st st' :
  quorum_inv st -> perform_action_kind a st = Ok (tt, st') -> quorum_inv st'.
Proof.
  intros Hinv H.
  destruct a; unfold perform_action_kind, set_quorum, bind, get, require, ret,
    throw, modify in H.
  - injection H as <-. unfold quorum_inv, board_member_count in *.
    rewrite set_role_st_quorum. pose proof (set_role_st_to_bm a st). lia.
  - destruct (demotion_allowed st a) eqn:D; [|discriminate].
    injection H as <-. apply demotion_keeps_inv; assumption.
  - destruct (match role_of st a with RoleNone => false | _ => true end);
      [|discriminate].
    destruct (demotion_allowed st a) eqn:D; [|discriminate].
    injection H as <-. apply demotion_keeps_inv; assumption.
  - destruct (negb (n =? 0) && (n <=? num_board_members st)) eqn:E; [|discriminate].
    injection H as <-. apply andb_prop in E as [H1 H2].
    apply negb_true_iff, Nat.eqb_neq in H1. apply Nat.leb_le in H2.
    unfold quorum_inv, board_member_count; cbn. lia.
  - injection H as <-; exact Hinv.
  - injection H as <-; exact Hinv.
  - injection H as <-; exact Hinv.
  - injection H as <-; exact Hinv.
Qed.

Lemma exec_inv op st o st' :
  quorum_inv st -> exec op st = Ok (o, st') -> quorum_inv st'.
Proof.
  intros Hinv H. destruct op;
    unfold exec, propose, sign, unsign, discard, perform, bind, get, require,
      ret, throw, modify, get_action in H;
    repeat case_match; simplify_eq;
    unfold quorum_inv, board_member_count in *; cbn in *; try lia.
  match goal with
  | Hk : perform_action_kind _ _ = Ok (?u, _) |- _ =>
      destruct u; apply perform_action_kind_inv in Hk; [|exact Hinv]
  end.
  unfold quorum_inv, board_member_count in *; cbn. lia.
Qed.

Lemma init_inv q board st : init q board = Ok st -> quorum_inv st.
Proof.
  unfold init, set_quorum, bind, get, require, ret, throw, modify.
  set (st0 := fold_left _ board empty_state).
  destruct (negb (q =? 0) && (q <=? num_board_members st0)) eqn:E;
    intros H; [|discriminate].
  injection H as <-. apply andb_prop in E as [H1 H2].
  apply negb_true_iff, Nat.eqb_neq in H1. apply Nat.leb_le in H2.
  unfold quorum_inv, board_member_count; cbn. lia.
Qed.

(** C2.  Every state reachable from deployment satisfies
    [1 <= quorum() <= board_member_count()]; from such a state, every
    transaction yields a state satisfying it again, and a rejected
    transaction leaves the state unchanged. *)
Theorem quorum_invariant st :
  reachable st ->
  quorum_inv st /\
  forall op, quorum_inv (fst (run_tx st op)) /\
    (forall e, snd (run_tx st op) = Err e -> fst (run_tx st op) = st).
Proof.
  assert (Hstep : forall st op, quorum_inv st -> quorum_inv (fst (run_tx st op)) /\
    (forall e, snd (run_tx st op) = Err e -> fst (run_tx st op) = st)).
  { intros st0 op Hinv. unfold run_tx.
    destruct (exec op st0) as [[o st1]|e] eqn:E; cbn.
    - split; [eapply exec_inv; eassumption | discriminate].
    - split; [assumption | reflexivity]. }
  intros Hr. assert (Hinv : quorum_inv st).
  { induction Hr as [q board st0 Hi|st0 op _ IH].
    - eapply init_inv; eassumption.
    - apply Hstep; assumption. }
  split; [assumption|]. intros op. apply Hstep; assumption.
Qed.

Lemma quorum_invariant_witness :
  reachable deployed_1_1 /\
  (quorum_inv deployed_1_1 /\
   forall op, quorum_inv (fst (run_tx deployed_1_1 op)) /\
    (forall e, snd (run_tx deployed_1_1 op) = Err e -> fst (run_tx deployed_1_1 op) = deployed_1_1)).
Proof.
  split.
  - apply (reach_init 1 [1%Z]). reflexivity.
  - apply quorum_invariant. apply (reach_init 1 [1%Z]). reflexivity.
Defined.

(** ** Discard *)

Lemma discard_ok_inv id caller st u st' :
  discard id caller st = Ok (u, st') ->
  exists e, actions st !! id = Some e /\
    (is_board_member (role_of st caller) = true \/ caller = action_proposer e) /\
    quorum_reached st id = false.
Proof.
  unfold discard, bind, get, require, ret, throw, modify, get_action.
  destruct (actions st !! id) as [e|]; [|discriminate].
  destruct (is_board_member (role_of st caller) || (caller =? action_proposer e)%Z)
    eqn:Ea; [|discriminate].
  destruct (quorum_reached st id) eqn:Eq; cbn; [discriminate|]. intros _.
  exists e. split; [reflexivity|]. split; [|reflexivity].
  apply orb_prop in Ea as [Ea|Ea]; [left; exact Ea|right; apply Z.eqb_eq, Ea].
Qed.

Lemma discard_ready_rejected id caller st :
  quorum_reached st id = true -> exists err, discard id caller st = Err err.
Proof.
  intros Hq. unfold discard, bind, get, require, ret, throw, modify, get_action.
  destruct (actions st !! id) as [e|]; [|eexists; reflexivity].
  destruct (_ || _); [|eexists; reflexivity].
  rewrite Hq. eexists; reflexivity.
Qed.

(** The dispatcher's own rejections. *)
Lemma perform_action_kind_errors a st er :
  perform_action_kind a st = Err er ->
  er = QuorumWouldBeUnreachable \/ er = NothingToRemove \/ er = InvalidQuorum.
Proof.
  destruct a; unfold perform_action_kind, set_quorum, bind, get, require, ret,
    throw, modify; repeat case_match; intros Herr; simplify_eq; auto.
Qed.

(** C3.  A successful [discard id caller] requires the caller to be a board
    member or the action's proposer, and the action's quorum not to be
    reached.  A [discard] of an action whose quorum is reached is rejected,
    the state is unchanged, and the action stays stored and ready: a
    [perform] by a board member is not refused for a missing action or an
    unmet quorum. *)
Theorem discard_requires_not_ready st id caller :
  (forall u st', discard id caller st = Ok (u, st') ->
     exists e, actions st !! id = Some e /\
       (is_board_member (role_of st caller) = true \/ caller = action_proposer e) /\
       quorum_reached st id = false) /\
  (quorum_reached st id = true ->
     (exists err, snd (run_tx st (ODiscard id caller)) = Err err) /\
     fst (run_tx st (ODiscard id caller)) = st /\
     forall e b, actions st !! id = Some e -> is_board_member (role_of st b) = true ->
       actions (fst (run_tx st (ODiscard id caller))) !! id = Some e /\
       quorum_reached (fst (run_tx st (ODiscard id caller))) id = true /\
       perform id b (fst (run_tx st (ODiscard id caller))) <> Err NotFound /\
       perform id b (fst (run_tx st (ODiscard id caller))) <> Err QuorumNotMet).
Proof.
  split; [apply discard_ok_inv|].
  intros Hq. destruct (discard_ready_rejected id caller st Hq) as [err Herr].
  assert (Hrun : run_tx st (ODiscard id caller) = (st, Err err)).
  { unfold run_tx, exec, bind. rewrite Herr. reflexivity. }
  rewrite Hrun; cbn. split; [eexists; reflexivity|]. split; [reflexivity|].
  intros e b He Hb. split; [exact He|]. split; [exact Hq|].
  unfold perform, bind, get, require, ret, throw, modify, get_action.
  rewrite Hb, He, Hq. cbn.
  destruct (perform_action_kind (action_data e) st) as [[[] st1]|er] eqn:Ek; cbn;
    [split; discriminate|].
  apply perform_action_kind_errors in Ek.
  split; intros Hc; injection Hc as ->; intuition discriminate.
Qed.

(** A board of [{1; 2}] with quorum 1: action 1 proposed by 1 and signed by 1. *)
Lemma discard_requires_not_ready_witness :
  let st := fst (run_trace deployed_1_1
                   [OPropose 1 (ChangeQuorum 1); OSign 1 1]) in
  quorum_reached st 1 = true /\
  ((exists err, snd (run_tx st (ODiscard 1 1)) = Err err) /\
   fst (run_tx st (ODiscard 1 1)) = st /\
   forall e b, actions st !! 1 = Some e -> is_board_member (role_of st b) = true ->
     actions (fst (run_tx st (ODiscard 1 1))) !! 1 = Some e /\
     quorum_reached (fst (run_tx st (ODiscard 1 1))) 1 = true /\
     perform 1 b (fst (run_tx st (ODiscard 1 1))) <> Err NotFound /\
     perform 1 b (fst (run_tx st (ODiscard 1 1))) <> Err QuorumNotMet).
Proof.
  intros st. split; [vm_compute; reflexivity|].
  apply (discard_requires_not_ready st 1 1). vm_compute. reflexivity.
Defined.

(** ** ChangeQuorum *)

Lemma perform_reaches_kind id caller st e :
  is_board_member (role_of st caller) = true -> actions st !! id = Some e ->
  quorum_reached st id = true ->
  perform id caller st =
    match perform_action_kind (action_data e) st with
    | Ok (_, st1) => Ok (tt, set_actions (delete id) st1)
    | Err er => Err er
    end.
Proof.
  intros Hb He Hq. unfold perform, bind, get, require, ret, throw, modify, get_action.
  rewrite Hb, He, Hq. reflexivity.
Qed.

(** C4.  Performing a ready [ChangeQuorum n] action with [n = 0] or [n]
    above the board-member count is rejected with [InvalidQuorum] and the
    state, hence [quorum()], is unchanged.  Scenario: board [{B1; B2}],
    quorum 2, [ChangeQuorum 3] proposed and signed by both members: its
    [perform] fails with [InvalidQuorum] and the quorum stays 2. *)
Theorem change_quorum_invalid :
  (forall st id caller e n,
     is_board_member (role_of st caller) = true -> actions st !! id = Some e ->
     action_data e = ChangeQuorum n -> quorum_reached st id = true ->
     (n = 0 \/ board_member_count st < n) ->
     perform id caller st = Err InvalidQuorum /\
     run_tx st (OPerform id caller) = (st, Err InvalidQuorum)) /\
  (forall B1 B2 : Identity, B1 <> B2 ->
     exists st0, init 2 [B1; B2] = Ok st0 /\
     exists st1, propose B1 (ChangeQuorum 3) st0 = Ok (1, st1) /\
     exists st2, sign 1 B1 st1 = Ok (tt, st2) /\
     exists st3, sign 1 B2 st2 = Ok (tt, st3) /\
     quorum_reached st3 1 = true /\ board_member_count st3 = 2 /\
     run_tx st3 (OPerform 1 B1) = (st3, Err InvalidQuorum) /\ quorum st3 = 2).
Proof.
  split.
  - intros st id caller e n Hb He Hd Hq Hn.
    assert (Hp : perform id caller st = Err InvalidQuorum).
    { rewrite (perform_reaches_kind id caller st e Hb He Hq), Hd.
      unfold perform_action_kind, set_quorum, bind, get, require, ret, throw, modify.
      unfold board_member_count in Hn.
      replace (negb (n =? 0) && (n <=? num_board_members st)) with false;
        [reflexivity|].
      destruct Hn as [->|Hn]; [reflexivity|].
      symmetry. apply andb_false_iff. right. apply Nat.leb_gt, Hn. }
    split; [exact Hp|].
    unfold run_tx, exec, bind. rewrite Hp. reflexivity.
  - intros B1 B2 Hne.
    eexists; split; [unfold init; crunch; reflexivity|].
    eexists; split; [crunch; reflexivity|].
    eexists; split; [crunch; reflexivity|].
    eexists; split; [crunch; reflexivity|].
    unfold run_tx, exec. crunch. auto.
Qed.

Lemma change_quorum_invalid_witness :
  (1 <> 2)%Z /\
  exists st0, init 2 [1; 2]%Z = Ok st0 /\
  exists st1, propose 1 (ChangeQuorum 3) st0 = Ok (1, st1) /\
  exists st2, sign 1 1 st1 = Ok (tt, st2) /\
  exists st3, sign 1 2 st2 = Ok (tt, st3) /\
  quorum_reached st3 1 = true /\ board_member_count st3 = 2 /\
  run_tx st3 (OPerform 1 1) = (st3, Err InvalidQuorum) /\ quorum st3 = 2.
Proof. split; [lia|]. apply change_quorum_invalid. lia. Defined.

(** ** Stale signatures *)

Lemma role_of_set_actions f st : role_of (set_actions f st) = role_of st.
Proof. reflexivity. Qed.

Lemma perform_ok_inv id caller st u st' :
  perform id caller st = Ok (u, st') ->
  exists e st1, actions st !! id = Some e /\
    perform_action_kind (action_data e) st = Ok (tt, st1) /\
    st' = set_actions (delete id) st1.
Proof.
  unfold perform, bind, get, require, ret, throw, modify, get_action.
  destruct (is_board_member (role_of st caller)); [|discriminate].
  destruct (actions st !! id) as [e|]; [|discriminate].
  destruct (quorum_reached st id); [|discriminate].
  destruct (perform_action_kind (action_data e) st) as [[[] st1]|er] eqn:Ek;
    [|discriminate].
  intros H. injection H as _ <-. exists e, st1. auto.
Qed.

Lemma remove_user_ok_inv s st st1 :
  perform_action_kind (RemoveUser s) st = Ok (tt, st1) -> st1 = set_role_st s RoleNone st.
Proof.
  unfold perform_action_kind, bind, get, require, ret, throw, modify.
  repeat case_match; intros Hk; simplify_eq; reflexivity.
Qed.

Lemma filter_all_false {A} (f : A -> bool) (l : list A) :
  (forall x, In x l -> f x = false) -> List.filter f l = [].
Proof.
  induction l as [|x l IH]; cbn; intros Hf; [reflexivity|].
  rewrite Hf by auto. apply IH. auto.
Qed.

Lemma no_live_signer_pending st id :
  quorum_inv st ->
  (forall e, actions st !! id = Some e ->
     forall s, In s (action_signers e) -> role_of st s <> BoardMember) ->
  quorum_reached st id = false /\ forall c, exists err, perform id c st = Err err.
Proof.
  intros Hinv Hs.
  assert (Hq : quorum_reached st id = false).
  { unfold quorum_reached, signature_count, valid_signature_count.
    unfold quorum_inv in Hinv. apply Nat.leb_gt.
    destruct (actions st !! id) as [e|] eqn:He; [|lia].
    specialize (Hs e eq_refl).
    replace (List.filter _ (action_signers e)) with (@nil Identity); [cbn; lia|].
    symmetry. apply filter_all_false. intros s Hin.
    specialize (Hs s Hin). destruct (role_of st s); cbn; congruence. }
  split; [exact Hq|]. intros c.
  unfold perform, bind, get, require, ret, throw, modify, get_action.
  destruct (is_board_member (role_of st c)); [|eexists; reflexivity].
  destruct (actions st !! id); [|eexists; reflexivity].
  rewrite Hq. eexists; reflexivity.
Qed.

(** C5.  [signature_count] counts the recorded signers that are board
    members now; an action none of whose recorded signers is a current board
    member has not reached its quorum and cannot be performed; and when the
    only signer [s] of a pending action [a] is removed by performing a
    [RemoveUser s] action, [a] stays stored with its stale signature, counts
    0 signatures, and stays pending. *)
Theorem stale_signatures_excluded :
  (forall st id e, actions st !! id = Some e ->
     signature_count st id =
       length (List.filter (fun s => is_board_member (role_of st s)) (action_signers e))) /\
  (forall st id, quorum_inv st ->
     (forall e, actions st !! id = Some e ->
        forall s, In s (action_signers e) -> role_of st s <> BoardMember) ->
     quorum_reached st id = false /\ forall c, exists err, perform id c st = Err err) /\
  (forall st st' a r b s e er, a <> r -> quorum_inv st ->
     actions st !! a = Some e -> action_signers e = [s] ->
     actions st !! r = Some er -> action_data er = RemoveUser s ->
     perform r b st = Ok (tt, st') ->
     actions st' !! a = Some e /\ action_signers e = [s] /\
     role_of st' s = RoleNone /\ signature_count st' a = 0 /\
     quorum_reached st' a = false /\ forall c, exists err, perform a c st' = Err err).
Proof.
  split; [|split].
  - intros st id e He. unfold signature_count. rewrite He. reflexivity.
  - apply no_live_signer_pending.
  - intros st st' a r b s e er Har Hinv Ha Hsig Hr Hd Hp.
    assert (Hinv' : quorum_inv st').
    { apply (exec_inv (OPerform r b) st OutUnit st' Hinv).
      unfold exec, bind. rewrite Hp. reflexivity. }
    destruct (perform_ok_inv r b st tt st' Hp) as (e' & st1 & He' & Hk & ->).
    rewrite Hr in He'. injection He' as <-. rewrite Hd in Hk.
    apply remove_user_ok_inv in Hk as ->.
    assert (Hrole : role_of (set_actions (delete r) (set_role_st s RoleNone st)) s = RoleNone).
    { unfold role_of, set_role_st; cbn. rewrite lookup_insert_eq. reflexivity. }
    assert (Ha' : actions (set_actions (delete r) (set_role_st s RoleNone st)) !! a = Some e).
    { cbn. rewrite lookup_delete_ne by congruence. exact Ha. }
    assert (Hlive : forall e0,
      actions (set_actions (delete r) (set_role_st s RoleNone st)) !! a = Some e0 ->
      forall s0, In s0 (action_signers e0) ->
      role_of (set_actions (delete r) (set_role_st s RoleNone st)) s0 <> BoardMember).
    { intros e0 He0 s0 Hin. rewrite Ha' in He0. injection He0 as <-.
      rewrite Hsig in Hin. destruct Hin as [<-|[]]. rewrite Hrole. discriminate. }
    destruct (no_live_signer_pending _ a Hinv' Hlive) as [Hq Hperf].
    repeat split; auto.
    unfold signature_count, valid_signature_count. rewrite Ha', Hsig. cbn.
    rewrite Hrole. reflexivity.
Qed.

(** Board [{1; 2; 3}], quorum 2: member 1 signs action 1; action 2
    ([RemoveUser 1]) is signed by 2 and 3 and performed by 2. *)
Lemma stale_signatures_excluded_witness :
  let st := fst (run_trace
    (match init 2 [1; 2; 3]%Z with Ok s => s | Err _ => empty_state end)
    [OPropose 1 (ChangeQuorum 1); OSign 1 1; OPropose 2 (RemoveUser 1);
     OSign 2 2; OSign 2 3]) in
  let st' := match perform 2 2 st with Ok (_, s) => s | Err _ => st end in
  exists e er, actions st !! 1 = Some e /\ actions st !! 2 = Some er /\
  (1 <> 2 /\ quorum_inv st /\ action_signers e = [1%Z] /\
   action_data er = RemoveUser 1 /\ perform 2 2 st = Ok (tt, st')) /\
  (actions st' !! 1 = Some e /\ action_signers e = [1%Z] /\
   role_of st' 1 = RoleNone /\ signature_count st' 1 = 0 /\
   quorum_reached st' 1 = false /\ forall c, exists err, perform 1 c st' = Err err).
Proof.
  intros st st'.
  eexists _, _. split; [vm_compute; reflexivity|]. split; [vm_compute; reflexivity|].
  assert (Hst : 1 <> 2 /\ quorum_inv st /\
    action_signers (Build_ActionEntry (ChangeQuorum 1) 1 [1%Z]) = [1%Z] /\
    action_data (Build_ActionEntry (RemoveUser 1) 2 [2%Z; 3%Z]) = RemoveUser 1 /\
    perform 2 2 st = Ok (tt, st')).
  { split; [lia|]. split; [vm_compute; lia|]. vm_compute. auto. }
  split; [exact Hst|].
  destruct Hst as (Hne & Hinv & Hsig & Hd & Hp).
  apply (proj2 (proj2 stale_signatures_excluded) st st' 1 2 2%Z 1%Z
           (Build_ActionEntry (ChangeQuorum 1) 1 [1%Z])
           (Build_ActionEntry (RemoveUser 1) 2 [2%Z; 3%Z]));
    auto; vm_compute; reflexivity.
Defined.

(** ** Action ids *)

Lemma perform_action_kind_last_id a st st1 :
  perform_action_kind a st = Ok (tt, st1) -> action_last_id st1 = action_last_id st.
Proof.
  destruct a; unfold perform_action_kind, set_quorum, bind, get, require, ret,
    throw, modify; repeat case_match; intros Hk; simplify_eq; reflexivity.
Qed.

Lemma exec_last_id op st o st' :
  exec op st = Ok (o, st') ->
  match o with
  | OutId i => i = S (action_last_id st) /\ action_last_id st' = i
  | OutUnit => action_last_id st' = action_last_id st
  end.
Proof.
  intros H. destruct op;
    unfold exec, propose, sign, unsign, discard, perform, bind, get, require,
      ret, throw, modify, get_action in H;
    repeat case_match; simplify_eq; cbn; auto.
  match goal with
  | Hk : perform_action_kind _ _ = Ok (?u, _) |- _ =>
      destruct u; apply perform_action_kind_last_id in Hk; exact Hk
  end.
Qed.

Lemma run_trace_ids st ops :
  StronglySorted lt (proposed_ids (snd (run_trace st ops))) /\
  Forall (fun i => action_last_id st < i <= action_last_id (fst (run_trace st ops)))
    (proposed_ids (snd (run_trace st ops))) /\
  action_last_id st <= action_last_id (fst (run_trace st ops)) /\
  (forall i rest, proposed_ids (snd (run_trace st ops)) = i :: rest ->
     i = S (action_last_id st)).
Proof.
  revert st. induction ops as [|op ops IH]; intros st; cbn.
  - split; [constructor|]. split; [constructor|]. split; [lia|]. discriminate.
  - destruct (run_tx st op) as [st1 r] eqn:Etx.
    destruct (run_trace st1 ops) as [st2 rs] eqn:Etr.
    destruct (IH st1) as (Hs & Hf & Hle & Hhd). rewrite Etr in Hs, Hf, Hle, Hhd.
    cbn in *.
    assert (Hr : match r with
                 | Ok (OutId i) => i = S (action_last_id st) /\ action_last_id st1 = i
                 | _ => action_last_id st1 = action_last_id st
                 end).
    { unfold run_tx in Etx. destruct (exec op st) as [[o st1']|e] eqn:Ex;
        injection Etx as <- <-; [|reflexivity].
      apply exec_last_id in Ex. destruct o; exact Ex. }
    destruct r as [[i|]|e]; cbn.
    + destruct Hr as [-> Hl]. split; [|split; [|split]].
      * constructor; [exact Hs|].
        eapply Forall_impl; [exact Hf|]. intros j Hj. cbn in Hj. lia.
      * constructor; [lia|].
        eapply Forall_impl; [exact Hf|]. intros j Hj. cbn in *. lia.
      * lia.
      * intros j rest Hj. injection Hj as <- _. reflexivity.
    + split; [exact Hs|]. rewrite Hr in Hf, Hle.
      split; [exact Hf|]. split; [lia|].
      intros j rest Hj. rewrite <- Hr. apply (Hhd j rest Hj).
    + split; [exact Hs|]. rewrite Hr in Hf, Hle.
      split; [exact Hf|]. split; [lia|].
      intros j rest Hj. rewrite <- Hr. apply (Hhd j rest Hj).
Qed.

Lemma init_last_id q board st : init q board = Ok st -> action_last_id st = 0.
Proof.
  unfold init, set_quorum, bind, get, require, ret, throw, modify.
  assert (Hf : forall l st0, action_last_id st0 = 0 ->
    action_last_id (fold_left (fun st b => set_role_st b BoardMember st) l st0) = 0).
  { induction l as [|b l IH]; intros st0 H0; cbn; [exact H0|]. apply IH. exact H0. }
  specialize (Hf board empty_state eq_refl).
  repeat case_match; intros Hk; simplify_eq. cbn. exact Hf.
Qed.

(** C6.  Over any run of transactions after deployment, the ids returned by
    successful proposals start at 1, are strictly increasing and pairwise
    distinct, whatever actions were performed or discarded in between. *)
Theorem action_ids_increasing q board st0 ops :
  init q board = Ok st0 ->
  StronglySorted lt (proposed_ids (snd (run_trace st0 ops))) /\
  NoDup (proposed_ids (snd (run_trace st0 ops))) /\
  Forall (fun i => 1 <= i) (proposed_ids (snd (run_trace st0 ops))) /\
  (forall i rest, proposed_ids (snd (run_trace st0 ops)) = i :: rest -> i = 1).
Proof.
  intros Hi. apply init_last_id in Hi.
  destruct (run_trace_ids st0 ops) as (Hs & Hf & _ & Hhd). rewrite Hi in Hf, Hhd.
  split; [exact Hs|]. split.
  - clear -Hs. induction Hs as [|i l _ IH Hall]; constructor; [|exact IH].
    intros Hin. rewrite Forall_forall in Hall. specialize (Hall i Hin). lia.
  - split; [eapply Forall_impl; [exact Hf|]; intros j Hj; cbn in *; lia|].
    exact Hhd.
Qed.

(** Proposals, a performed action and a discarded one, then more proposals:
    ids 1, 2, 3, 4. *)
Lemma action_ids_increasing_witness :
  init 1 [1%Z] = Ok deployed_1_1 /\
  proposed_ids (snd (run_trace deployed_1_1
    [OPropose 1 (AddProposer 2); OSign 1 1; OPerform 1 1;
     OPropose 2 (ChangeQuorum 1); ODiscard 2 2; OPropose 2 (AddProposer 3);
     OPropose 1 (RemoveUser 3)])) = [1; 2; 3; 4] /\
  (StronglySorted lt (proposed_ids (snd (run_trace deployed_1_1
    [OPropose 1 (AddProposer 2); OSign 1 1; OPerform 1 1;
     OPropose 2 (ChangeQuorum 1); ODiscard 2 2; OPropose 2 (AddProposer 3);
     OPropose 1 (RemoveUser 3)]))) /\
  NoDup (proposed_ids (snd (run_trace deployed_1_1
    [OPropose 1 (AddProposer 2); OSign 1 1; OPerform 1 1;
     OPropose 2 (ChangeQuorum 1); ODiscard 2 2; OPropose 2 (AddProposer 3);
     OPropose 1 (RemoveUser 3)]))) /\
  Forall (fun i => 1 <= i) (proposed_ids (snd (run_trace deployed_1_1
    [OPropose 1 (AddProposer 2); OSign 1 1; OPerform 1 1;
     OPropose 2 (ChangeQuorum 1); ODiscard 2 2; OPropose 2 (AddProposer 3);
     OPropose 1 (RemoveUser 3)]))) /\
  (forall i rest, proposed_ids (snd (run_trace deployed_1_1
    [OPropose 1 (AddProposer 2); OSign 1 1; OPerform 1 1;
     OPropose 2 (ChangeQuorum 1); ODiscard 2 2; OPropose 2 (AddProposer 3);
     OPropose 1 (RemoveUser 3)])) = i :: rest -> i = 1)).
Proof.
  split; [reflexivity|]. split; [vm_compute; reflexivity|].
  apply (action_ids_increasing 1 [1%Z]). reflexivity.
Defined.

(** ** Idempotence of sign and unsign *)

Lemma run_trace_repeat_fixed st op n :
  fst (run_tx st op) = st -> fst (run_trace st (repeat op n)) = st.
Proof.
  intros Hfix. induction n as [|n IH]; cbn; [reflexivity|].
  destruct (run_tx st op) as [st1 r] eqn:E. cbn in Hfix. subst st1.
  destruct (run_trace st (repeat op n)) as [st2 rs] eqn:E2. cbn in *. exact IH.
Qed.

Lemma run_trace_repeat st st1 op k :
  fst (run_tx st op) = st1 -> fst (run_tx st1 op) = st1 ->
  fst (run_trace st (repeat op (S k))) = st1.
Proof.
  intros H1 Hfix. cbn. destruct (run_tx st op) as [st1' r] eqn:E. cbn in H1. subst st1'.
  pose proof (run_trace_repeat_fixed st1 op k Hfix) as Hr.
  destruct (run_trace st1 (repeat op k)) as [st2 rs]. cbn in *. exact Hr.
Qed.

Lemma filter_idem {A} (f : A -> bool) (l : list A) :
  List.filter f (List.filter f l) = List.filter f l.
Proof.
  induction l as [|x l IH]; cbn; [reflexivity|].
  destruct (f x) eqn:E; cbn; [rewrite E, IH|exact IH]. reflexivity.
Qed.

Lemma sign_ok_inv id s st st1 :
  sign id s st = Ok (tt, st1) ->
  is_board_member (role_of st s) = true /\
  exists e, actions st !! id = Some e /\
    ((s ∈ action_signers e /\ st1 = st) \/
     ((s ∉ action_signers e) /\
      st1 = set_actions (<[id := with_signers e (action_signers e ++ [s])]>) st)).
Proof.
  unfold sign, bind, get, require, ret, throw, modify, get_action.
  destruct (is_board_member (role_of st s)) eqn:Eb; [|discriminate].
  destruct (actions st !! id) as [e|] eqn:Ee; [|discriminate].
  intros Hs. split; [reflexivity|]. exists e. split; [reflexivity|].
  destruct (bool_decide (s ∈ action_signers e)) eqn:Em; injection Hs as <-.
  - left. split; [apply bool_decide_eq_true_1 in Em; exact Em|reflexivity].
  - right. split; [apply bool_decide_eq_false_1 in Em; exact Em|reflexivity].
Qed.

Lemma sign_twice id s st st1 :
  sign id s st = Ok (tt, st1) -> sign id s st1 = Ok (tt, st1).
Proof.
  intros H. destruct (sign_ok_inv id s st st1 H) as (Hb & e & He & [[Hin ->]|[Hnin ->]]).
  - exact H.
  - unfold sign, bind, get, require, ret, throw, modify, get_action.
    rewrite role_of_set_actions, Hb. cbn. rewrite lookup_insert_eq. cbn.
    rewrite bool_decide_eq_true_2; [reflexivity|].
    apply list_elem_of_In, in_or_app. right. left. reflexivity.
Qed.

Lemma sign_count id s st st1 :
  sign id s st = Ok (tt, st1) -> signature_count st1 id <= S (signature_count st id).
Proof.
  intros H. destruct (sign_ok_inv id s st st1 H) as (Hb & e & He & [[Hin ->]|[Hnin ->]]).
  - lia.
  - unfold signature_count, valid_signature_count.
    rewrite He. cbn. rewrite lookup_insert_eq. cbn.
    rewrite List.filter_app, length_app. cbn.
    rewrite role_of_set_actions, Hb. cbn. lia.
Qed.

Lemma unsign_ok_inv id s st st1 :
  unsign id s st = Ok (tt, st1) ->
  is_board_member (role_of st s) = true /\
  exists e, actions st !! id = Some e /\
    st1 = set_actions (<[id := with_signers e
            (List.filter (fun x => negb (Z.eqb x s)) (action_signers e))]>) st.
Proof.
  unfold unsign, bind, get, require, ret, throw, modify, get_action.
  destruct (is_board_member (role_of st s)) eqn:Eb; [|discriminate].
  destruct (actions st !! id) as [e|] eqn:Ee; [|discriminate].
  intros Hs. injection Hs as <-. split; [reflexivity|]. exists e. auto.
Qed.

Lemma unsign_twice id s st st1 :
  unsign id s st = Ok (tt, st1) -> unsign id s st1 = Ok (tt, st1).
Proof.
  intros H. destruct (unsign_ok_inv id s st st1 H) as (Hb & e & He & ->).
  unfold unsign, bind, get, require, ret, throw, modify, get_action.
  rewrite role_of_set_actions, Hb. cbn. rewrite lookup_insert_eq. cbn.
  unfold set_actions at 1; cbn. rewrite insert_insert_eq.
  unfold with_signers at 1; cbn. rewrite filter_idem. reflexivity.
Qed.

Lemma unsign_removes id s st st1 e :
  unsign id s st = Ok (tt, st1) -> actions st1 !! id = Some e ->
  ~ In s (action_signers e).
Proof.
  intros H He1. destruct (unsign_ok_inv id s st st1 H) as (Hb & e0 & He & ->).
  cbn in He1. rewrite lookup_insert_eq in He1. injection He1 as <-. cbn.
  intros Hin. apply filter_In in Hin as [_ Hn]. rewrite Z.eqb_refl in Hn. discriminate.
Qed.

(** C7.  A second [sign id s] after a successful one succeeds and changes
    nothing; a successful [sign] raises [signature_count id] by at most one,
    and any number of repeated [sign id s] transactions ends in the state of
    the first.  Likewise a successful [unsign id s] removes [s] from the
    signers, a second [unsign] succeeds and changes nothing, and repeated
    [unsign] transactions end in the state of the first. *)
Theorem sign_unsign_idempotent :
  (forall id s st st1, sign id s st = Ok (tt, st1) ->
     sign id s st1 = Ok (tt, st1) /\
     signature_count st1 id <= S (signature_count st id) /\
     forall k, fst (run_trace st (repeat (OSign id s) (S k))) = st1) /\
  (forall id s st st1, unsign id s st = Ok (tt, st1) ->
     (forall e, actions st1 !! id = Some e -> ~ In s (action_signers e)) /\
     unsign id s st1 = Ok (tt, st1) /\
     forall k, fst (run_trace st (repeat (OUnsign id s) (S k))) = st1).
Proof.
  split.
  - intros id s st st1 H. split; [apply (sign_twice id s st st1 H)|].
    split; [apply (sign_count id s st st1 H)|].
    intros k. apply run_trace_repeat.
    + unfold run_tx, exec, bind. rewrite H. reflexivity.
    + unfold run_tx, exec, bind. rewrite (sign_twice id s st st1 H). reflexivity.
  - intros id s st st1 H. split; [intros e; apply (unsign_removes id s st st1 e H)|].
    split; [apply (unsign_twice id s st st1 H)|].
    intros k. apply run_trace_repeat.
    + unfold run_tx, exec, bind. rewrite H. reflexivity.
    + unfold run_tx, exec, bind. rewrite (unsign_twice id s st st1 H). reflexivity.
Qed.

(** Board member 1 signs, then unsigns, action 1 of the deployed state. *)
Lemma sign_unsign_idempotent_witness :
  let st := fst (run_tx deployed_1_1 (OPropose 1 (ChangeQuorum 1))) in
  let st1 := match sign 1 1 st with Ok (_, s) => s | Err _ => st end in
  let st2 := match unsign 1 1 st1 with Ok (_, s) => s | Err _ => st1 end in
  sign 1 1 st = Ok (tt, st1) /\ unsign 1 1 st1 = Ok (tt, st2) /\
  (sign 1 1 st1 = Ok (tt, st1) /\
   signature_count st1 1 <= S (signature_count st 1) /\
   forall k, fst (run_trace st (repeat (OSign 1 1) (S k))) = st1) /\
  ((forall e, actions st2 !! 1 = Some e -> ~ In 1%Z (action_signers e)) /\
   unsign 1 1 st2 = Ok (tt, st2) /\
   forall k, fst (run_trace st1 (repeat (OUnsign 1 1) (S k))) = st2).
Proof.
  intros st st1 st2.
  assert (H1 : sign 1 1 st = Ok (tt, st1)) by (vm_compute; reflexivity).
  assert (H2 : unsign 1 1 st1 = Ok (tt, st2)) by (vm_compute; reflexivity).
  split; [exact H1|]. split; [exact H2|]. split.
  - apply (proj1 sign_unsign_idempotent). exact H1.
  - apply (proj2 sign_unsign_idempotent). exact H2.
Defined.

(** ** Role lookup *)

Lemma perform_action_kind_roles a st st1 i :
  perform_action_kind a st = Ok (tt, st1) -> role_target a <> Some i ->
  user_roles st1 !! i = user_roles st !! i.
Proof.
  intros Hk Ht. destruct a; unfold perform_action_kind, set_quorum, bind, get,
    require, ret, throw, modify in Hk; repeat case_match; simplify_eq; cbn in *;
    try reflexivity; apply lookup_insert_ne; congruence.
Qed.

Lemma run_tx_roles_untouched st op i :
  (forall id c e, op = OPerform id c -> actions st !! id = Some e ->
     role_target (action_data e) <> Some i) ->
  user_roles (fst (run_tx st op)) !! i = user_roles st !! i.
Proof.
  intros Hop. unfold run_tx.
  destruct (exec op st) as [[o st']|er] eqn:Ex; cbn; [|reflexivity].
  destruct op;
    unfold exec, propose, sign, unsign, discard, bind, get, require, ret, throw,
      modify, get_action in Ex;
    try (repeat case_match; simplify_eq; reflexivity).
  unfold exec, bind in Ex.
  destruct (perform id caller st) as [[[] st1]|er] eqn:Ep; [|discriminate].
  injection Ex as _ <-.
  destruct (perform_ok_inv id caller st tt st1 Ep) as (e & st2 & He & Hk & ->).
  cbn. apply (perform_action_kind_roles _ _ _ _ Hk). eapply Hop; eauto.
Qed.

Lemma init_roles q board st i :
  init q board = Ok st -> ~ In i board -> user_roles st !! i = None.
Proof.
  unfold init, set_quorum, bind, get, require, ret, throw, modify.
  assert (Hf : forall l st0, ~ In i l -> user_roles st0 !! i = None ->
    user_roles (fold_left (fun st b => set_role_st b BoardMember st) l st0) !! i = None).
  { induction l as [|b l IH]; intros st0 Hn H0; cbn; [exact H0|].
    apply IH; [intros Hin; apply Hn; right; exact Hin|].
    cbn. rewrite lookup_insert_ne; [exact H0|]. intros ->. apply Hn. left. reflexivity. }
  intros Hi Hn. specialize (Hf board empty_state Hn eq_refl).
  repeat case_match; simplify_eq. exact Hf.
Qed.

(** C9.  [role_of] is total with exactly three possible values; it returns
    [None] for an identity absent from the role map; after deployment only
    the board members have a role; and no transaction gives a role to an
    identity unless it performs an action targeting that identity, so an
    identity never assigned a role keeps [None]. *)
Theorem role_of_default_none :
  (forall st i, role_of st i = RoleNone \/ role_of st i = Proposer \/
                role_of st i = BoardMember) /\
  (forall st i, user_roles st !! i = None -> role_of st i = RoleNone) /\
  (forall q board st i, init q board = Ok st -> ~ In i board ->
     role_of st i = RoleNone) /\
  (forall st op i, user_roles st !! i = None ->
     (forall id c e, op = OPerform id c -> actions st !! id = Some e ->
        role_target (action_data e) <> Some i) ->
     role_of (fst (run_tx st op)) i = RoleNone).
Proof.
  split; [|split; [|split]].
  - intros st i. destruct (role_of st i); auto.
  - intros st i H. unfold role_of. rewrite H. reflexivity.
  - intros q board st i Hi Hn. unfold role_of. rewrite (init_roles q board st i Hi Hn).
    reflexivity.
  - intros st op i H Hop. unfold role_of. rewrite (run_tx_roles_untouched st op i Hop), H.
    reflexivity.
Qed.

(** After deploying with board [{1}], identity 2 has no role, also after a
    proposal by 1 concerning identity 3. *)
Lemma role_of_default_none_witness :
  init 1 [1%Z] = Ok deployed_1_1 /\ ~ In 2%Z [1%Z] /\
  role_of deployed_1_1 2 = RoleNone /\
  role_of (fst (run_tx deployed_1_1 (OPropose 1 (AddProposer 3)))) 2 = RoleNone.
Proof.
  assert (Hi : init 1 [1%Z] = Ok deployed_1_1) by reflexivity.
  assert (Hn : ~ In 2%Z [1%Z]) by (cbn; lia).
  split; [exact Hi|]. split; [exact Hn|].
  destruct role_of_default_none as (_ & _ & Hinit & Htx).
  split; [apply (Hinit 1 [1%Z]); assumption|].
  apply Htx; [vm_compute; reflexivity|]. intros id c e Hc. discriminate.
Defined.

End MultisigFacts.

(** * Properties of the forwarder queue *)

Module ForwarderQueueFacts.
Import ForwarderQueue.















End ForwarderQueueFacts.

(** * Further properties of the forwarder queue *)

Module ForwarderQueueExtra.
Import ForwarderQueue ForwarderQueueFacts.







(** Without the [promises] feature a promise call is popped and announced
    by its forward event, but no call is made: forwarding a queue of promise
    calls, with enough gas, empties it and emits only their forward events. *)
Theorem forward_promises_disabled exec fuel st :
  (forall c, In c (queued_calls st) -> call_type c = Promise) ->
  length (queued_calls st) < fuel ->
  forward_queued_calls false exec fuel st =
    Some (mkState [] (effects st ++ map forward_event (queued_calls st))).
Proof.
  unfold forward_queued_calls. destruct st as [q eff]; cbn [queued_calls effects].
  revert fuel eff.
  induction q as [|c q IH]; intros fuel eff Hall Hlen;
    destruct fuel as [|f]; cbn [length] in Hlen; try lia.
  - cbn. rewrite app_nil_r. reflexivity.
  - cbn [forward_loop queued_calls effects map].
    rewrite (Hall c (or_introl eq_refl)).
    rewrite IH by ((intros x Hx; apply Hall; right; exact Hx) || lia).
    rewrite <- app_assoc. reflexivity.
Qed.

Lemma forward_promises_disabled_witness :
  let c := Build_QueuedCall Promise 7 10 "f" [] (Egld 3) in
  (forall x, In x (queued_calls (mkState [c; c] [])) -> call_type x = Promise) /\
  length (queued_calls (mkState [c; c] [])) < 3 /\
  forward_queued_calls false callee_returns 3 (mkState [c; c] []) =
    Some (mkState [] ([] ++ map forward_event [c; c])).
Proof.
  intros c.
  assert (Hall : forall x, In x (queued_calls (mkState [c; c] [])) -> call_type x = Promise).
  { intros x Hx. cbn in Hx. destruct Hx as [<-|[<-|[]]]; reflexivity. }
  split; [exact Hall|]. split; [cbn; lia|].
  apply (forward_promises_disabled callee_returns 3 (mkState [c; c] []) Hall). cbn; lia.
Defined.

End ForwarderQueueExtra.

(** * Properties of the multisig whitebox test harness *)

Module MultisigWhiteboxFacts.
Import Multisig MultisigWhitebox.

Lemma byte_of_low8_to_N n : Byte.to_N (byte_of_low8 n) = (n mod 256)%N.
Proof.
  unfold byte_of_low8. destruct (Byte.of_N (n mod 256)) eqn:E.
  - apply Byte.to_of_N in E. exact E.
  - apply Byte.of_N_None_iff in E. pose proof (N.mod_lt n 256 ltac:(lia)). lia.
Qed.

Lemma to_bytes_be_digits_value fuel n acc :
  (n < 256 ^ N.of_nat fuel)%N ->
  from_bytes_be (to_bytes_be_digits fuel n acc) =
  fold_left (fun acc b => acc * 256 + Byte.to_N b)%N acc n.
Proof.
  unfold from_bytes_be. revert n acc.
  induction fuel as [|f IH]; intros n acc Hn; cbn [to_bytes_be_digits].
  - cbn in Hn. assert (n = 0%N) by lia. subst. reflexivity.
  - destruct (N.eqb_spec n 0) as [->|Hn0]; [reflexivity|].
    rewrite IH.
    + cbn [fold_left]. rewrite byte_of_low8_to_N.
      pose proof (N.div_mod n 256 ltac:(lia)).
      replace (n / 256 * 256 + n mod 256)%N with n by lia. reflexivity.
    + apply N.Div0.div_lt_upper_bound.
      rewrite Nat2N.inj_succ, N.pow_succ_r' in Hn. lia.
Qed.

Lemma size_nat_bound p : (N.pos p < 256 ^ N.of_nat (Pos.size_nat p))%N.
Proof.
  induction p as [p IH|p IH|]; cbn [Pos.size_nat].
  - rewrite Nat2N.inj_succ, N.pow_succ_r'.
    change (N.pos p~1) with (2 * N.pos p + 1)%N. lia.
  - rewrite Nat2N.inj_succ, N.pow_succ_r'.
    change (N.pos p~0) with (2 * N.pos p)%N. lia.
  - reflexivity.
Qed.

(** The [to_bytes_be]/[from_bytes_be] round trip of [num_bigint]. *)
Lemma from_to_bytes_be n : from_bytes_be (to_bytes_be n) = n.
Proof.
  unfold to_bytes_be. destruct n as [|p]; [reflexivity|]. cbn [N.eqb].
  rewrite to_bytes_be_digits_value by apply size_nat_bound. reflexivity.
Qed.

Lemma boxed_bytes_vec_to_managed_id l : boxed_bytes_vec_to_managed l = l.
Proof.
  unfold boxed_bytes_vec_to_managed.
  enough (H : forall acc, fold_left (fun r i => r ++ [i]) l acc = acc ++ l) by apply H.
  induction l as [|x l IH]; intros acc; cbn.
  - rewrite app_nil_r. reflexivity.
  - rewrite IH, <- app_assoc. reflexivity.
Qed.

Lemma opt_endpoint_spec s :
  opt_endpoint s = if bool_decide (s = ""%string) then None else Some s.
Proof. destruct s; reflexivity. Qed.

(** [call_propose] returns exactly when the raw action is not [_Nothing],
    the amount picked from it fits the proposer's balance and the proposal
    succeeds; it then attaches that amount as EGLD value (the call data's
    [egld_amount] for a transfer-execute or async call, the [amount] of a
    deploy or upgrade, 0 otherwise; the [to_bytes_be]/[from_bytes_be]
    round trip keeps it) and returns the proposal's id and state.  In every
    other case the test panics. *)
Theorem call_propose_outcome balance proposer action st v id st' :
  call_propose balance proposer action st = Some (v, id, st') <->
  (action <> ActionRaw._Nothing /\
   (call_propose_egld_amount action <= balance)%N /\
   v = call_propose_egld_amount action /\
   exists a, call_propose_action action = Some a /\ propose proposer a st = Ok (id, st')).
Proof.
  unfold call_propose. rewrite from_to_bytes_be. split.
  - destruct (N.ltb_spec balance (call_propose_egld_amount action)) as [Hb|Hb];
      [discriminate|].
    destruct (call_propose_action action) as [a|] eqn:E; [|discriminate].
    destruct (propose proposer a st) as [[id' st'']|er] eqn:Ep; [|discriminate].
    intros H. injection H as <- <- <-.
    split; [intros ->; discriminate|]. split; [exact Hb|]. split; [reflexivity|].
    exists a. auto.
  - intros (Hn & Hb & -> & a & Ea & Ep).
    destruct (N.ltb_spec balance (call_propose_egld_amount action)) as [Hb'|_]; [lia|].
    rewrite Ea, Ep. reflexivity.
Qed.

(** The action proposed by [call_propose] carries the raw action's fields
    unchanged: the destination, the amount (through the byte round trip),
    the arguments in their order, and an endpoint that is absent exactly
    when the raw endpoint name is empty. *)
Theorem call_propose_action_fields :
  (forall d, call_propose_action (ActionRaw.SendTransferExecute d) =
     Some (SendTransferExecute (Build_CallActionData
       (CallActionDataRaw.to d) (CallActionDataRaw.egld_amount d)
       (if bool_decide (CallActionDataRaw.endpoint_name d = ""%string) then None
        else Some (CallActionDataRaw.endpoint_name d))
       (CallActionDataRaw.arguments d)))) /\
  (forall d, call_propose_action (ActionRaw.SendAsyncCall d) =
     Some (SendAsyncCall (Build_CallActionData
       (CallActionDataRaw.to d) (CallActionDataRaw.egld_amount d)
       (if bool_decide (CallActionDataRaw.endpoint_name d = ""%string) then None
        else Some (CallActionDataRaw.endpoint_name d))
       (CallActionDataRaw.arguments d)))) /\
  (forall amount source code_metadata args,
     call_propose_action (ActionRaw.SCDeployFromSource amount source code_metadata args) =
     Some (SCDeployFromSource amount source code_metadata args)) /\
  (forall sc_address amount source code_metadata args,
     call_propose_action
       (ActionRaw.SCUpgradeFromSource sc_address amount source code_metadata args) =
     Some (SCUpgradeFromSource sc_address amount source code_metadata args)).
Proof.
  repeat split; intros; cbn [call_propose_action];
    rewrite ?from_to_bytes_be, ?boxed_bytes_vec_to_managed_id, ?opt_endpoint_spec;
    reflexivity.
Qed.

(** The [test_add_proposer] scenario.  From board [{B}], quorum 1 and
    proposer [P] (whose balance is the 100000000 of the test's [setup]), with
    [X] holding no role: [call_propose] of [AddProposer X] by [P] attaches no
    EGLD and succeeds; after [B] signs and performs, [X]
    is a proposer and the proposer list is [P] then [X]. *)
Theorem add_proposer_scenario (B P X : Z)
  (HBP : B <> P) (HBX : B <> X) (HPX : P <> X) :
  exists st0, setup B P = Ok st0 /\ role_of st0 X = RoleNone /\
  exists id st1, call_propose 100000000 P (ActionRaw.AddProposer X) st0 = Some (0%N, id, st1) /\
  exists st2, sign id B st1 = Ok (tt, st2) /\
  exists st3, perform id B st2 = Ok (tt, st3) /\
    role_of st3 X = Proposer /\ get_all_proposers st3 = [P; X].
Proof.
  eexists; split; [reflexivity|].
  split; [unfold role_of; cbn; simplify_map_eq; reflexivity|].
  eexists _, _; split; [unfold call_propose; cbn [call_propose_action];
    MultisigFacts.crunch; reflexivity|].
  eexists; split; [MultisigFacts.crunch; reflexivity|].
  eexists; split; [MultisigFacts.crunch; reflexivity|].
  MultisigFacts.crunch. auto.
Qed.

Lemma add_proposer_scenario_witness :
  (1 <> 2 /\ 1 <> 3 /\ 2 <> 3)%Z /\
  exists st0, setup 1 2 = Ok st0 /\ role_of st0 3 = RoleNone /\
  exists id st1, call_propose 100000000 2 (ActionRaw.AddProposer 3) st0 = Some (0%N, id, st1) /\
  exists st2, sign id 1 st1 = Ok (tt, st2) /\
  exists st3, perform id 1 st2 = Ok (tt, st3) /\
    role_of st3 3 = Proposer /\ get_all_proposers st3 = [2; 3]%Z.
Proof. split; [lia|]. apply add_proposer_scenario; lia. Defined.

End MultisigWhiteboxFacts.
